(** * LaboratorioDFA: the DFA engine, the word automaton and the comment automaton

    A shallow embedding of the C++ classes [AbstractDFA], [WordDFA] and
    [CommentDFA] (automata.h, automata.cpp).  An object is a record of its
    fields, a member function is a computation in a small state monad over
    that record, and the virtual call [doStep] dispatches on the dynamic
    class of the object. *)

From Stdlib Require Import ZArith Lia Ascii String.
From stdpp Require Import base gmap strings list.

Local Open Scope Z_scope.

(** ** Machine integers *)

(** [int] is a 32-bit two's complement integer, held as a [Z].  [to_int] is
    the conversion of an arbitrary integer value to [int]. *)
Definition INT_MAX : Z := 2147483647.

Definition to_int (z : Z) : Z := (z + 2 ^ 31) mod 2 ^ 32 - 2 ^ 31.

(** ** The object *)

(** The dynamic class of an object: it selects the body of the virtual
    member function [doStep]. *)
Inductive dfa_class : Type :=
  | AbstractDFA_class
  | WordDFA_class
  | CommentDFA_class.

(** [typedef std::pair<int,char> tpair;] is [Z * ascii]; the transition map
    [map<tpair,int>] is a finite map and [vector<int>] a list. *)
Record AbstractDFA : Type := mkDFA {
  vptr : dfa_class;
  actState : Z;
  numStates : Z;
  transitionF : gmap (Z * ascii) Z;
  finalStates : list Z
}.

Definition initialState : Z := 0.
Definition trapState : Z := -1.

Definition set_actState (q : Z) (d : AbstractDFA) : AbstractDFA :=
  mkDFA (vptr d) q (numStates d) (transitionF d) (finalStates d).

Definition set_numStates (n : Z) (d : AbstractDFA) : AbstractDFA :=
  mkDFA (vptr d) (actState d) n (transitionF d) (finalStates d).

(** ** Member functions as state transformers *)

Definition M (A : Type) : Type := AbstractDFA -> A * AbstractDFA.

Definition ret {A : Type} (a : A) : M A := fun d => (a, d).

Definition bind {A B : Type} (m : M A) (k : A -> M B) : M B :=
  fun d => let (a, d') := m d in k a d'.

Declare Scope dfa_scope.
Delimit Scope dfa_scope with dfa.
Notation "m1 >> m2" := (bind m1 (fun _ => m2))
  (at level 60, right associativity) : dfa_scope.

Definition put_actState (q : Z) : M unit := fun d => (tt, set_actState q d).

(** [AbstractDFA::AbstractDFA(int noStates)] *)
Definition AbstractDFA_ctor (cls : dfa_class) (noStates : Z) : AbstractDFA :=
  mkDFA cls initialState noStates ∅ [].

(** [AbstractDFA::reset] *)
Definition reset : M unit := put_actState initialState.

(** [AbstractDFA::doStep] *)
Definition AbstractDFA_doStep (letter : ascii) : M unit := fun d =>
  if negb (actState d =? trapState) then
    match transitionF d !! (actState d, letter) with
    | Some q => put_actState q d
    | None => put_actState trapState d
    end
  else (tt, d).

(** [CommentDFA::doStep] *)
Definition CommentDFA_doStep (letter : ascii) : M unit := fun d =>
  match actState d with
  | 2 =>
      if Ascii.eqb letter "010"%char then put_actState 3 d else (tt, d)
  | 4 =>
      if Ascii.eqb letter "}"%char then put_actState 3 d else (tt, d)
  | 6 =>
      if Ascii.eqb letter "*"%char then put_actState 7 d else (tt, d)
  | 7 =>
      if Ascii.eqb letter ")"%char then put_actState 3 d
      else if negb (Ascii.eqb letter "*"%char) then put_actState 6 d
      else (tt, d)
  | _ => AbstractDFA_doStep letter d
  end.

(** The virtual call [doStep(letter)]. *)
Definition doStep (letter : ascii) : M unit := fun d =>
  match vptr d with
  | CommentDFA_class => CommentDFA_doStep letter d
  | _ => AbstractDFA_doStep letter d
  end.

(** The loop of [AbstractDFA::isAccepting] over [finalStates], with its
    early [return true]. *)
Fixpoint isAccepting_loop (fs : list Z) : M bool := fun d =>
  match fs with
  | [] => (false, d)
  | it :: fs' => if it =? actState d then (true, d) else isAccepting_loop fs' d
  end.

(** [AbstractDFA::isAccepting] *)
Definition isAccepting : M bool := fun d => isAccepting_loop (finalStates d) d.

(** The loop of [AbstractDFA::run]: one [doStep] per character, in order. *)
Fixpoint run_loop (inputWord : string) : M unit :=
  match inputWord with
  | EmptyString => ret tt
  | String c rest => (doStep c >> run_loop rest)%dfa
  end.

(** [AbstractDFA::run] *)
Definition run (inputWord : string) : M bool :=
  (reset >> run_loop inputWord >> isAccepting)%dfa.

(** ** The concrete automata *)

(** [std::map::insert]: the element is added only if the key is absent. *)
Definition map_insert (k : Z * ascii) (v : Z) (m : gmap (Z * ascii) Z)
  : gmap (Z * ascii) Z :=
  match m !! k with
  | Some _ => m
  | None => <[k := v]> m
  end.

(** The loop of [WordDFA::WordDFA]; [rest] is the part of the word from
    index [i] on, so that [word[i]] is its first character. *)
Fixpoint WordDFA_loop (i : Z) (rest : string) (tf : gmap (Z * ascii) Z)
  : gmap (Z * ascii) Z :=
  match rest with
  | EmptyString => tf
  | String c rest' =>
      WordDFA_loop (to_int (i + 1)) rest' (map_insert (i, c) (to_int (i + 1)) tf)
  end.

(** [WordDFA::WordDFA(const string &word)] *)
Definition WordDFA (word : string) : AbstractDFA :=
  let d := AbstractDFA_ctor WordDFA_class
             (to_int (Z.of_nat (String.length word) + 1)) in
  mkDFA (vptr d) (actState d) (numStates d)
        (WordDFA_loop 0 word (transitionF d))
        (finalStates d ++ [to_int (Z.of_nat (String.length word))]).

(** [CommentDFA::CommentDFA()] *)
Definition CommentDFA : AbstractDFA :=
  let d := AbstractDFA_ctor CommentDFA_class 8 in
  let tf :=
    map_insert (7, ")"%char) 3
   (map_insert (5, "*"%char) 6
   (map_insert (0, "("%char) 5
   (map_insert (4, "}"%char) 3
   (map_insert (0, "{"%char) 4
   (map_insert (2, "010"%char) 3
   (map_insert (1, "/"%char) 2
   (map_insert (0, "/"%char) 1 (transitionF d)))))))) in
  mkDFA (vptr d) (actState d) (numStates d) tf (finalStates d ++ [3]).

(** The variant of [AbstractDFA::isAccepting] in the earlier revisions of
    automata.cpp: [return actState;], the conversion of an [int] to [bool]. *)
Definition isAccepting_conv : M bool := fun d =>
  (negb (actState d =? 0), d).

(** [AbstractDFA::run] of those revisions: the same body, calling their
    [isAccepting]. *)
Definition run_conv (inputWord : string) : M bool :=
  (reset >> run_loop inputWord >> isAccepting_conv)%dfa.

(** ** Test inputs *)

Definition nl : string := String "010"%char EmptyString.
Definition open_paren : string := String "("%char EmptyString.
Definition close_paren : string := String ")"%char EmptyString.

Definition line_comment : string := "// comment" +:+ nl.
Definition brace_comment : string := "{ comment }".
Definition paren_comment : string := open_paren +:+ "* comment *" +:+ close_paren.
Definition paren_comment_stars : string :=
  open_paren +:+ "* a ** b *" +:+ close_paren.
Definition line_unterminated : string := "// unterminated".
Definition brace_unterminated : string := "{ unterminated".
Definition paren_unterminated : string := open_paren +:+ "* unterminated".

(** ** Notions used in the statements *)

(** The constructor of [WordDFA] computes [word.length()+1] as an [int];
    [word_fits] says that this value is representable. *)
Definition word_fits (word : string) : Prop :=
  Z.of_nat (String.length word) < INT_MAX.

(** [chain_from T i suf]: in table [T], the states from [i] on form the
    chain that spells [suf], and nothing else leaves them. *)
Fixpoint chain_from (T : gmap (Z * ascii) Z) (i : Z) (suf : string) : Prop :=
  match suf with
  | EmptyString => forall c : ascii, T !! (i, c) = None
  | String a suf' =>
      (forall c : ascii,
          T !! (i, c) = if decide (a = c) then Some (i + 1) else None) /\
      chain_from T (i + 1) suf'
  end.

(** Two objects that agree on every field but [numStates]. *)
Definition same_but_numStates (d1 d2 : AbstractDFA) : Prop :=
  vptr d1 = vptr d2 /\
  actState d1 = actState d2 /\
  transitionF d1 = transitionF d2 /\
  finalStates d1 = finalStates d2.

(** A member function that never reads or writes [numStates]. *)
Definition ignores_numStates {A : Type} (m : M A) : Prop :=
  forall (n : Z) (d : AbstractDFA),
    m (set_numStates n d) = (fst (m d), set_numStates n (snd (m d))).

(** A call that a client can make to advance or rewind an automaton. *)
Inductive call : Type :=
  | call_reset
  | call_doStep (letter : ascii).

Definition do_call (k : call) : M unit :=
  match k with
  | call_reset => reset
  | call_doStep letter => doStep letter
  end.

Fixpoint do_calls (ks : list call) : M unit :=
  match ks with
  | [] => ret tt
  | k :: ks' => (do_call k >> do_calls ks')%dfa
  end.

Definition state_in_range (d : AbstractDFA) : Prop :=
  actState d = trapState \/ 0 <= actState d <= numStates d - 1.

Definition table_in_range (d : AbstractDFA) : Prop :=
  forall (k : Z * ascii) (v : Z),
    transitionF d !! k = Some v -> 0 <= v <= numStates d - 1.

(** What the constructors establish and every call keeps. *)
Record range_inv (d : AbstractDFA) : Prop := mk_range_inv {
  inv_initial : 0 <= initialState <= numStates d - 1;
  inv_table : table_in_range d;
  inv_comment : vptr d = CommentDFA_class -> 8 <= numStates d;
  inv_state : state_in_range d
}.

(** ** Notions used in the further properties *)

(** Any public member function of [AbstractDFA], as a client calls it; the
    value a call returns is dropped. *)
Inductive method : Type :=
  | m_reset
  | m_doStep (letter : ascii)
  | m_isAccepting
  | m_run (inputWord : string).

Definition invoke (m : method) : M unit :=
  match m with
  | m_reset => reset
  | m_doStep letter => doStep letter
  | m_isAccepting => (isAccepting >> ret tt)%dfa
  | m_run inputWord => (run inputWord >> ret tt)%dfa
  end.

Fixpoint invoke_all (ms : list method) : M unit :=
  match ms with
  | [] => ret tt
  | m :: ms' => (invoke m >> invoke_all ms')%dfa
  end.

(** The transition table read as a partial function on words: the state the
    edges of [T] lead to from [q] along [x], if every edge is there. *)
Fixpoint delta_star (T : gmap (Z * ascii) Z) (q : Z) (x : string) : option Z :=
  match x with
  | EmptyString => Some q
  | String c x' =>
      match T !! (q, c) with
      | Some q' => delta_star T q' x'
      | None => None
      end
  end.

(** The three forms of comment, as sets of strings. *)
Definition free_of (stop : ascii) (body : string) : Prop :=
  ~ In stop (list_ascii_of_string body).

Definition close_token : string := "*" +:+ close_paren.

Definition ends_with (tok t : string) : Prop := exists u : string, t = u +:+ tok.

(** [t] ends with the closing token, and no proper prefix of [t] does. *)
Definition closes_at_end_only (t : string) : Prop :=
  ends_with close_token t /\
  forall p s : string,
    t = p +:+ s -> s <> EmptyString -> ~ ends_with close_token p.

Definition is_line_comment (x : string) : Prop :=
  exists body : string,
    x = "//" +:+ body +:+ nl /\ free_of "010"%char body.

Definition is_brace_comment (x : string) : Prop :=
  exists body : string,
    x = "{" +:+ body +:+ "}" /\ free_of "}"%char body.

Definition is_paren_comment (x : string) : Prop :=
  exists t : string,
    x = open_paren +:+ "*" +:+ t /\ closes_at_end_only t.

(** Tables that agree on every key whose state is not one of the states
    that [CommentDFA::doStep] handles itself. *)
Definition agree_off_switch (T1 T2 : gmap (Z * ascii) Z) : Prop :=
  forall (q : Z) (c : ascii),
    q <> 2 -> q <> 4 -> q <> 6 -> q <> 7 -> T1 !! (q, c) = T2 !! (q, c).

Definition set_transitionF (T : gmap (Z * ascii) Z) (d : AbstractDFA)
  : AbstractDFA :=
  mkDFA (vptr d) (actState d) (numStates d) T (finalStates d).

(** The five edges of [CommentDFA::CommentDFA] whose source state is looked
    up in the table. *)
Definition CommentDFA_looked_up_edges : gmap (Z * ascii) Z :=
  map_insert (5, "*"%char) 6
 (map_insert (0, "("%char) 5
 (map_insert (0, "{"%char) 4
 (map_insert (1, "/"%char) 2
 (map_insert (0, "/"%char) 1 ∅)))).

(** The comment automaton put in state [q]. *)
Local Abbreviation at_state q := (set_actState q CommentDFA).

(** * Properties *)

(** ** The monad and the basic operations *)

Lemma bind_unfold {A B : Type} (m : M A) (k : A -> M B) (d : AbstractDFA) :
  bind m k d = k (fst (m d)) (snd (m d)).
Proof. unfold bind. destruct (m d); reflexivity. Qed.

Lemma run_loop_cons (c : ascii) (x : string) (d : AbstractDFA) :
  run_loop (String c x) d = run_loop x (snd (doStep c d)).
Proof. cbn [run_loop]. rewrite bind_unfold. reflexivity. Qed.

Lemma run_loop_app (x y : string) (d : AbstractDFA) :
  run_loop (x +:+ y) d = run_loop y (snd (run_loop x d)).
Proof.
  revert d. induction x as [|c x IH]; intros d.
  - reflexivity.
  - change (String c x +:+ y) with (String c (x +:+ y)).
    rewrite !run_loop_cons. apply IH.
Qed.

Lemma run_unfold (x : string) (d : AbstractDFA) :
  run x d = isAccepting (snd (run_loop x (set_actState initialState d))).
Proof. unfold run. rewrite !bind_unfold. reflexivity. Qed.

Lemma isAccepting_loop_snd (fs : list Z) (d : AbstractDFA) :
  snd (isAccepting_loop fs d) = d.
Proof.
  induction fs as [|it fs IH]; cbn [isAccepting_loop].
  - reflexivity.
  - destruct (it =? actState d); [reflexivity | exact IH].
Qed.

Lemma isAccepting_loop_In (fs : list Z) (d : AbstractDFA) :
  fst (isAccepting_loop fs d) = true <-> In (actState d) fs.
Proof.
  induction fs as [|it fs IH]; cbn [isAccepting_loop In].
  - split; [discriminate | tauto].
  - destruct (Z.eqb_spec it (actState d)) as [E|N].
    + split; [intros _; left; exact E | reflexivity].
    + rewrite IH. split; [tauto | intros [E|HIn]; [contradiction | exact HIn]].
Qed.

Lemma AbstractDFA_doStep_trap (c : ascii) (d : AbstractDFA) :
  actState d = trapState -> AbstractDFA_doStep c d = (tt, d).
Proof. intros H. unfold AbstractDFA_doStep. rewrite H. reflexivity. Qed.

Lemma CommentDFA_doStep_trap (c : ascii) (d : AbstractDFA) :
  actState d = trapState -> CommentDFA_doStep c d = (tt, d).
Proof.
  intros H. unfold CommentDFA_doStep. rewrite H. cbn.
  apply AbstractDFA_doStep_trap, H.
Qed.

Lemma doStep_trap (c : ascii) (d : AbstractDFA) :
  actState d = trapState -> doStep c d = (tt, d).
Proof.
  intros H. unfold doStep.
  destruct (vptr d); auto using AbstractDFA_doStep_trap, CommentDFA_doStep_trap.
Qed.

Lemma run_loop_trap (x : string) (d : AbstractDFA) :
  actState d = trapState -> run_loop x d = (tt, d).
Proof.
  intros H. induction x as [|c x IH].
  - reflexivity.
  - rewrite run_loop_cons, doStep_trap by exact H. exact IH.
Qed.

(** ** The comment automaton on the listed inputs *)

(** C2: the comment automaton accepts the terminated line, brace and
    parenthesis-star comments (also with a run of asterisks before the
    close), and rejects the three unterminated comments and a text that is
    not a comment. *)
Theorem CommentDFA_run_cases :
  fst (run line_comment CommentDFA) = true /\
  fst (run brace_comment CommentDFA) = true /\
  fst (run paren_comment CommentDFA) = true /\
  fst (run paren_comment_stars CommentDFA) = true /\
  fst (run line_unterminated CommentDFA) = false /\
  fst (run brace_unterminated CommentDFA) = false /\
  fst (run paren_unterminated CommentDFA) = false /\
  fst (run "not a comment" CommentDFA) = false.
Proof. repeat split; vm_compute; reflexivity. Qed.

(** ** Acceptance test *)

(** C3: [isAccepting] answers true exactly when the current state occurs in
    [finalStates], and it returns the object unchanged; this holds for every
    object, whatever its dynamic class, table and current state. *)
Theorem isAccepting_membership_pure (d : AbstractDFA) :
  (fst (isAccepting d) = true <-> In (actState d) (finalStates d)) /\
  snd (isAccepting d) = d.
Proof.
  unfold isAccepting. split.
  - apply isAccepting_loop_In.
  - apply isAccepting_loop_snd.
Qed.

(** ** The trap state *)

(** C4: in the trap state both bodies of [doStep] (the engine's and the
    comment automaton's) leave the object as it is, for every character;
    so if the state is trap after a prefix of the input, it is trap after
    every continuation of that prefix. *)
Theorem trap_absorbing :
  (forall (d : AbstractDFA) (c : ascii),
      actState d = trapState ->
      AbstractDFA_doStep c d = (tt, d) /\
      CommentDFA_doStep c d = (tt, d) /\
      doStep c d = (tt, d)) /\
  (forall (d : AbstractDFA) (pre cont : string),
      actState (snd (run_loop pre d)) = trapState ->
      actState (snd (run_loop (pre +:+ cont) d)) = trapState).
Proof.
  split.
  - intros d c H.
    auto using AbstractDFA_doStep_trap, CommentDFA_doStep_trap, doStep_trap.
  - intros d pre cont H.
    rewrite run_loop_app, run_loop_trap by exact H. exact H.
Qed.

Lemma trap_absorbing_witness :
  actState (snd (run_loop "x" CommentDFA)) = trapState /\
  actState (snd (run_loop ("x" +:+ "//" +:+ nl) CommentDFA)) = trapState.
Proof.
  split.
  - vm_compute. reflexivity.
  - apply (proj2 trap_absorbing CommentDFA "x" ("//" +:+ nl)).
    vm_compute. reflexivity.
Defined.

(** ** State 7 of the comment automaton *)

(** C5: in state 7 the comment automaton moves to 3 on a closing
    parenthesis, stays in 7 on an asterisk and moves to 6 on every other
    character; no other field changes. *)
Theorem CommentDFA_doStep_state7 (d : AbstractDFA) :
  vptr d = CommentDFA_class ->
  actState d = 7 ->
  snd (doStep ")"%char d) = set_actState 3 d /\
  snd (doStep "*"%char d) = d /\
  (forall c : ascii,
      c <> ")"%char -> c <> "*"%char -> snd (doStep c d) = set_actState 6 d).
Proof.
  intros Hcls Hst. unfold doStep, CommentDFA_doStep. rewrite Hcls, Hst.
  repeat split.
  intros c Hp Ha.
  destruct (Ascii.eqb_spec c ")"%char) as [E|_]; [contradiction|].
  destruct (Ascii.eqb_spec c "*"%char) as [E|_]; [contradiction|].
  reflexivity.
Qed.

Lemma CommentDFA_doStep_state7_witness :
  snd (doStep ")"%char (set_actState 7 CommentDFA)) = set_actState 3 CommentDFA /\
  snd (doStep "*"%char (set_actState 7 CommentDFA)) = set_actState 7 CommentDFA /\
  snd (doStep "a"%char (set_actState 7 CommentDFA)) = set_actState 6 CommentDFA.
Proof.
  destruct (CommentDFA_doStep_state7 (set_actState 7 CommentDFA) eq_refl eq_refl)
    as (H1 & H2 & H3).
  split; [exact H1 | split; [exact H2 |]].
  apply (H3 "a"%char); discriminate.
Defined.

(** ** The transition table of the comment automaton *)

Lemma map_insert_lookup (k k' : Z * ascii) (v : Z) (m : gmap (Z * ascii) Z) :
  map_insert k v m !! k' =
  match m !! k' with
  | Some v' => Some v'
  | None => if decide (k = k') then Some v else None
  end.
Proof.
  unfold map_insert. destruct (m !! k) as [w|] eqn:Hk.
  - destruct (m !! k') as [w'|] eqn:Hk'; [reflexivity|].
    destruct (decide (k = k')) as [->|_]; [congruence | reflexivity].
  - rewrite lookup_insert. destruct (decide (k = k')) as [->|N].
    + rewrite Hk. reflexivity.
    + destruct (m !! k'); reflexivity.
Qed.

Lemma map_insert_lookup_ne (k k' : Z * ascii) (v : Z) (m : gmap (Z * ascii) Z) :
  k <> k' -> map_insert k v m !! k' = m !! k'.
Proof.
  intros N. rewrite map_insert_lookup.
  destruct (m !! k'); [reflexivity|].
  destruct (decide (k = k')); [contradiction | reflexivity].
Qed.

Lemma CommentDFA_no_edge_from_3 (c : ascii) :
  transitionF CommentDFA !! (3, c) = None.
Proof.
  cbn [CommentDFA transitionF AbstractDFA_ctor].
  rewrite !map_insert_lookup_ne by (intros [=]).
  apply lookup_empty.
Qed.

(** ** Fields other than the current state *)

Lemma set_actState_twice (q q' : Z) (d : AbstractDFA) :
  set_actState q (set_actState q' d) = set_actState q d.
Proof. reflexivity. Qed.

Lemma set_actState_same (d : AbstractDFA) : set_actState (actState d) d = d.
Proof. destruct d; reflexivity. Qed.

Lemma AbstractDFA_doStep_frame (c : ascii) (d : AbstractDFA) :
  snd (AbstractDFA_doStep c d) =
  set_actState (actState (snd (AbstractDFA_doStep c d))) d.
Proof.
  unfold AbstractDFA_doStep.
  destruct (negb (actState d =? trapState)).
  - destruct (transitionF d !! (actState d, c)); reflexivity.
  - symmetry. apply set_actState_same.
Qed.

Lemma CommentDFA_doStep_frame (c : ascii) (d : AbstractDFA) :
  snd (CommentDFA_doStep c d) =
  set_actState (actState (snd (CommentDFA_doStep c d))) d.
Proof.
  unfold CommentDFA_doStep.
  repeat case_match; try apply AbstractDFA_doStep_frame;
    cbn [snd put_actState]; try reflexivity;
    symmetry; apply set_actState_same.
Qed.

Lemma doStep_frame (c : ascii) (d : AbstractDFA) :
  snd (doStep c d) = set_actState (actState (snd (doStep c d))) d.
Proof.
  unfold doStep.
  destruct (vptr d); auto using AbstractDFA_doStep_frame, CommentDFA_doStep_frame.
Qed.

Lemma run_loop_frame (x : string) (d : AbstractDFA) :
  snd (run_loop x d) = set_actState (actState (snd (run_loop x d))) d.
Proof.
  revert d. induction x as [|c x IH]; intros d.
  - symmetry. apply set_actState_same.
  - rewrite run_loop_cons, IH, doStep_frame. reflexivity.
Qed.

(** ** State 3 of the comment automaton *)

Lemma CommentDFA_doStep_state3 (c : ascii) :
  doStep c (set_actState 3 CommentDFA) = (tt, set_actState trapState CommentDFA).
Proof.
  unfold doStep, CommentDFA_doStep, AbstractDFA_doStep.
  cbn [vptr actState set_actState CommentDFA AbstractDFA_ctor Z.eqb trapState negb].
  change (transitionF _) with (transitionF CommentDFA).
  rewrite CommentDFA_no_edge_from_3. reflexivity.
Qed.

(** C6: state 3 of the comment automaton has no way out but the trap: from
    state 3 every character leads to the trap state, and so an accepted
    input followed by at least one more character is rejected. *)
Theorem CommentDFA_state3_strict :
  (forall c : ascii,
      snd (doStep c (set_actState 3 CommentDFA)) =
      set_actState trapState CommentDFA) /\
  (forall (s : string) (c : ascii) (t : string),
      fst (run s CommentDFA) = true ->
      fst (run (s +:+ String c t) CommentDFA) = false).
Proof.
  split.
  - intros c. rewrite CommentDFA_doStep_state3. reflexivity.
  - intros s c t Hacc.
    rewrite run_unfold in Hacc. rewrite run_unfold.
    change (set_actState initialState CommentDFA) with CommentDFA in *.
    rewrite run_loop_app, run_loop_cons.
    rewrite (run_loop_frame s CommentDFA) in Hacc |- *.
    unfold isAccepting in Hacc. apply isAccepting_loop_In in Hacc.
    cbn [actState finalStates set_actState CommentDFA AbstractDFA_ctor app In]
      in Hacc.
    destruct Hacc as [Hacc|[]]. rewrite <- Hacc.
    rewrite CommentDFA_doStep_state3. cbn [snd].
    rewrite run_loop_trap by reflexivity. reflexivity.
Qed.

Lemma CommentDFA_state3_strict_witness :
  fst (run brace_comment CommentDFA) = true /\
  fst (run (brace_comment +:+ String "x"%char EmptyString) CommentDFA) = false.
Proof.
  split.
  - vm_compute. reflexivity.
  - apply (proj2 CommentDFA_state3_strict brace_comment "x"%char EmptyString).
    vm_compute. reflexivity.
Defined.

(** ** The automaton of the empty word *)

(** C7: the automaton built from the empty word has one declared state;
    state 0 is its initial state, its current state after construction and
    its only accepting state; it accepts the empty input and rejects every
    input of at least one character. *)
Theorem WordDFA_empty_word :
  initialState = 0 /\
  actState (WordDFA EmptyString) = 0 /\
  numStates (WordDFA EmptyString) = 1 /\
  finalStates (WordDFA EmptyString) = [0] /\
  fst (run EmptyString (WordDFA EmptyString)) = true /\
  (forall (c : ascii) (x : string),
      fst (run (String c x) (WordDFA EmptyString)) = false) /\
  fst (run "a" (WordDFA EmptyString)) = false.
Proof.
  assert (Hrej : forall (c : ascii) (x : string),
             fst (run (String c x) (WordDFA EmptyString)) = false).
  { intros c x. rewrite run_unfold, run_loop_cons.
    assert (Hstep : doStep c (set_actState initialState (WordDFA EmptyString)) =
                    (tt, set_actState trapState (WordDFA EmptyString))).
    { unfold doStep, AbstractDFA_doStep.
      cbn [vptr actState transitionF set_actState WordDFA AbstractDFA_ctor
           WordDFA_loop].
      rewrite lookup_empty. reflexivity. }
    rewrite Hstep. cbn [snd].
    rewrite run_loop_trap by reflexivity. reflexivity. }
  repeat split; try reflexivity; try exact Hrej.
Qed.

(** ** The declared number of states *)

Lemma same_but_numStates_set (d1 d2 : AbstractDFA) :
  same_but_numStates d1 d2 -> d2 = set_numStates (numStates d2) d1.
Proof.
  destruct d1, d2. unfold same_but_numStates, set_numStates. cbn.
  intros (-> & -> & -> & ->). reflexivity.
Qed.

Lemma set_numStates_same_but (n : Z) (d : AbstractDFA) :
  same_but_numStates d (set_numStates n d).
Proof. repeat split. Qed.

Lemma ignores_numStates_ret {A : Type} (a : A) : ignores_numStates (ret a).
Proof. intros n d. reflexivity. Qed.

Lemma ignores_numStates_bind {A B : Type} (m : M A) (k : A -> M B) :
  ignores_numStates m -> (forall a, ignores_numStates (k a)) ->
  ignores_numStates (bind m k).
Proof.
  intros Hm Hk n d. rewrite !bind_unfold, Hm. cbn [fst snd]. apply Hk.
Qed.

Lemma ignores_numStates_put (q : Z) : ignores_numStates (put_actState q).
Proof. intros n d. reflexivity. Qed.

Lemma ignores_numStates_AbstractDFA_doStep (c : ascii) :
  ignores_numStates (AbstractDFA_doStep c).
Proof.
  intros n d. unfold AbstractDFA_doStep. cbn [actState transitionF set_numStates].
  repeat case_match; reflexivity.
Qed.

Lemma ignores_numStates_CommentDFA_doStep (c : ascii) :
  ignores_numStates (CommentDFA_doStep c).
Proof.
  intros n d. unfold CommentDFA_doStep. cbn [actState set_numStates].
  repeat case_match; try reflexivity;
    apply ignores_numStates_AbstractDFA_doStep.
Qed.

Lemma ignores_numStates_doStep (c : ascii) : ignores_numStates (doStep c).
Proof.
  intros n d. unfold doStep. cbn [vptr set_numStates].
  destruct (vptr d);
    first [ apply ignores_numStates_AbstractDFA_doStep
          | apply ignores_numStates_CommentDFA_doStep ].
Qed.

Lemma ignores_numStates_isAccepting_loop (fs : list Z) :
  ignores_numStates (isAccepting_loop fs).
Proof.
  intros n d. induction fs as [|it fs IH]; cbn [isAccepting_loop].
  - reflexivity.
  - cbn [actState set_numStates]. destruct (it =? actState d); [reflexivity|].
    exact IH.
Qed.

Lemma ignores_numStates_isAccepting : ignores_numStates isAccepting.
Proof.
  intros n d. unfold isAccepting. cbn [finalStates set_numStates].
  apply ignores_numStates_isAccepting_loop.
Qed.

Lemma ignores_numStates_run_loop (x : string) : ignores_numStates (run_loop x).
Proof.
  induction x as [|c x IH]; cbn [run_loop].
  - apply ignores_numStates_ret.
  - apply ignores_numStates_bind; [apply ignores_numStates_doStep | intros _; exact IH].
Qed.

Lemma ignores_numStates_run (x : string) : ignores_numStates (run x).
Proof.
  unfold run. apply ignores_numStates_bind; [apply ignores_numStates_put|].
  intros _. apply ignores_numStates_bind; [apply ignores_numStates_run_loop|].
  intros _. apply ignores_numStates_isAccepting.
Qed.

Lemma ignores_numStates_same {A : Type} (m : M A) (d1 d2 : AbstractDFA) :
  ignores_numStates m -> same_but_numStates d1 d2 ->
  fst (m d1) = fst (m d2) /\ same_but_numStates (snd (m d1)) (snd (m d2)).
Proof.
  intros Hm Hsame. rewrite (same_but_numStates_set d1 d2 Hsame), Hm.
  cbn [fst snd]. split; [reflexivity | apply set_numStates_same_but].
Qed.

(** C8: [numStates] has no influence on behaviour: on two objects that
    differ at most in [numStates], each of [reset], [doStep] (both bodies
    and the virtual call), [isAccepting] and [run] returns the same value
    and leaves objects that again differ at most in [numStates]; in
    particular their current states are equal. *)
Theorem numStates_not_observable (d1 d2 : AbstractDFA) :
  same_but_numStates d1 d2 ->
  same_but_numStates (snd (reset d1)) (snd (reset d2)) /\
  (forall c : ascii,
      same_but_numStates (snd (AbstractDFA_doStep c d1))
                         (snd (AbstractDFA_doStep c d2)) /\
      same_but_numStates (snd (CommentDFA_doStep c d1))
                         (snd (CommentDFA_doStep c d2)) /\
      same_but_numStates (snd (doStep c d1)) (snd (doStep c d2))) /\
  (fst (isAccepting d1) = fst (isAccepting d2) /\
   same_but_numStates (snd (isAccepting d1)) (snd (isAccepting d2))) /\
  (forall x : string,
      fst (run x d1) = fst (run x d2) /\
      same_but_numStates (snd (run x d1)) (snd (run x d2))).
Proof.
  intros Hsame. split; [|split; [|split]].
  - apply (ignores_numStates_same reset); [apply ignores_numStates_put | exact Hsame].
  - intros c. repeat split;
      eapply ignores_numStates_same;
      eauto using ignores_numStates_AbstractDFA_doStep,
                  ignores_numStates_CommentDFA_doStep, ignores_numStates_doStep.
  - apply ignores_numStates_same; [apply ignores_numStates_isAccepting | exact Hsame].
  - intros x.
    apply ignores_numStates_same; [apply ignores_numStates_run | exact Hsame].
Qed.

Lemma numStates_not_observable_witness :
  fst (run brace_comment CommentDFA) =
  fst (run brace_comment (set_numStates 0 CommentDFA)) /\
  actState (snd (run brace_comment CommentDFA)) =
  actState (snd (run brace_comment (set_numStates 0 CommentDFA))).
Proof.
  destruct (numStates_not_observable CommentDFA (set_numStates 0 CommentDFA))
    as (_ & _ & _ & Hrun).
  - repeat split.
  - destruct (Hrun brace_comment) as (Hv & _ & Hst & _).
    split; [exact Hv | exact Hst].
Defined.

(** ** The two bodies of [isAccepting] *)

(** C10: the two bodies of [isAccepting] disagree.  On the automaton of the
    empty word right after construction (state 0, which is its accepting
    state) the membership test answers true and the conversion of
    [actState] answers false, so the empty input is accepted by one [run]
    and rejected by the other; on the automaton of the word ab after the
    input zz (trap state) the membership test answers false and the
    conversion answers true. *)
Theorem isAccepting_variants_disagree :
  (fst (isAccepting (WordDFA EmptyString)) = true /\
   fst (isAccepting_conv (WordDFA EmptyString)) = false) /\
  (fst (run EmptyString (WordDFA EmptyString)) = true /\
   fst (run_conv EmptyString (WordDFA EmptyString)) = false) /\
  (actState (snd (run_loop "zz" (WordDFA "ab"))) = trapState /\
   fst (run "zz" (WordDFA "ab")) = false /\
   fst (run_conv "zz" (WordDFA "ab")) = true).
Proof. repeat split; vm_compute; reflexivity. Qed.

(** ** The transition table of the word automaton *)

Lemma to_int_small (z : Z) : - 2 ^ 31 <= z <= INT_MAX -> to_int z = z.
Proof.
  unfold to_int, INT_MAX. intros H.
  rewrite Z.mod_small; lia.
Qed.

Lemma length_String (c : ascii) (s : string) :
  Z.of_nat (String.length (String c s)) = Z.of_nat (String.length s) + 1.
Proof. cbn [String.length]. lia. Qed.

(** Entries whose state lies before the loop index are not touched. *)
Lemma WordDFA_loop_lookup_lt (rest : string) :
  forall (i : Z) (tf : gmap (Z * ascii) Z) (k : Z) (c : ascii),
    0 <= i -> i + Z.of_nat (String.length rest) <= INT_MAX -> k < i ->
    WordDFA_loop i rest tf !! (k, c) = tf !! (k, c).
Proof.
  induction rest as [|a rest IH]; intros i tf k c Hi Hlen Hk.
  - reflexivity.
  - rewrite length_String in Hlen. cbn [WordDFA_loop].
    rewrite to_int_small by (unfold INT_MAX in *; lia).
    rewrite IH by lia.
    apply map_insert_lookup_ne. intros [= E _]. lia.
Qed.

Lemma WordDFA_loop_chain (rest : string) :
  forall (i : Z) (tf : gmap (Z * ascii) Z),
    0 <= i -> i + Z.of_nat (String.length rest) <= INT_MAX ->
    (forall (k : Z) (c : ascii), i <= k -> tf !! (k, c) = None) ->
    chain_from (WordDFA_loop i rest tf) i rest.
Proof.
  induction rest as [|a rest IH]; intros i tf Hi Hlen Hfree.
  - intros c. apply Hfree. lia.
  - rewrite length_String in Hlen. cbn [WordDFA_loop chain_from].
    rewrite to_int_small by (unfold INT_MAX in *; lia).
    split.
    + intros c. rewrite WordDFA_loop_lookup_lt by lia.
      rewrite map_insert_lookup, Hfree by lia.
      destruct (decide (a = c)) as [->|N].
      * rewrite decide_True by reflexivity. reflexivity.
      * rewrite decide_False by congruence. reflexivity.
    + apply IH; [lia | lia |].
      intros k c Hk. rewrite map_insert_lookup_ne by (intros [= E _]; lia).
      apply Hfree. lia.
Qed.

Lemma WordDFA_chain (word : string) :
  word_fits word -> chain_from (transitionF (WordDFA word)) 0 word.
Proof.
  unfold word_fits. intros Hfits. cbn [WordDFA transitionF AbstractDFA_ctor].
  apply WordDFA_loop_chain; [lia | lia |].
  intros k c _. apply lookup_empty.
Qed.

(** ** The word automaton accepts its word and nothing else *)

Lemma chain_run_loop (x : string) :
  forall (suf : string) (d : AbstractDFA),
    vptr d = WordDFA_class ->
    0 <= actState d ->
    chain_from (transitionF d) (actState d) suf ->
    finalStates d = [actState d + Z.of_nat (String.length suf)] ->
    fst (isAccepting (snd (run_loop x d))) = true <-> x = suf.
Proof.
  induction x as [|c x IH]; intros suf d Hcls Hpos Hchain Hfin.
  - cbn [run_loop ret snd]. unfold isAccepting.
    rewrite isAccepting_loop_In, Hfin. cbn [In].
    destruct suf as [|a suf].
    + cbn [String.length]. split; [reflexivity | intros _; left; lia].
    + rewrite length_String. split; [intros [E|[]]; lia | discriminate].
  - rewrite run_loop_cons.
    assert (Hstep : doStep c d = AbstractDFA_doStep c d)
      by (unfold doStep; rewrite Hcls; reflexivity).
    rewrite Hstep. unfold AbstractDFA_doStep.
    assert (Hnt : (actState d =? trapState) = false)
      by (apply Z.eqb_neq; unfold trapState; lia).
    rewrite Hnt. cbn [negb].
    assert (Htrap : fst (isAccepting (snd (run_loop x (set_actState trapState d))))
                    = false).
    { rewrite run_loop_trap by reflexivity. cbn [snd].
      apply not_true_is_false. unfold isAccepting.
      rewrite isAccepting_loop_In. cbn [set_actState finalStates actState].
      rewrite Hfin. cbn [In]. unfold trapState. lia. }
    destruct suf as [|a suf]; cbn [chain_from] in Hchain.
    + rewrite Hchain. cbn [put_actState snd]. rewrite Htrap.
      split; discriminate.
    + destruct Hchain as [Hedge Hchain]. rewrite Hedge.
      destruct (decide (a = c)) as [->|N].
      * cbn [put_actState snd].
        rewrite (IH suf); cycle 1.
        -- exact Hcls.
        -- cbn [set_actState actState]. lia.
        -- exact Hchain.
        -- cbn [set_actState finalStates actState]. rewrite Hfin, length_String.
           f_equal. lia.
        -- split; [intros ->; reflexivity | intros [= ->]; reflexivity].
      * cbn [put_actState snd]. rewrite Htrap.
        split; [discriminate | intros [= E _]; congruence].
Qed.

Lemma length_append (x y : string) :
  String.length (x +:+ y) = (String.length x + String.length y)%nat.
Proof.
  induction x as [|a x IH]; [reflexivity|].
  change (String a x +:+ y) with (String a (x +:+ y)).
  cbn [String.length]. rewrite IH. reflexivity.
Qed.

Lemma append_nonempty_neq (x : string) (c : ascii) (t : string) :
  x <> x +:+ String c t.
Proof.
  intros E. apply (f_equal String.length) in E.
  rewrite length_append in E. cbn [String.length] in E. lia.
Qed.

(** C1: the word automaton accepts exactly its word.  For every word whose
    length plus one is an [int] and every input [x], [run] answers true if
    and only if [x] is the word; so it accepts the word and rejects every
    other input: the proper prefixes of the word, its proper extensions
    and the rearrangements of its characters that differ from it. *)
Theorem WordDFA_run_iff (w x : string) :
  word_fits w ->
  (fst (run x (WordDFA w)) = true <-> x = w) /\
  fst (run w (WordDFA w)) = true /\
  (x <> w -> fst (run x (WordDFA w)) = false) /\
  (forall (c : ascii) (t : string),
      w = x +:+ String c t -> fst (run x (WordDFA w)) = false) /\
  (forall (c : ascii) (t : string),
      x = w +:+ String c t -> fst (run x (WordDFA w)) = false) /\
  (Permutation (list_ascii_of_string x) (list_ascii_of_string w) ->
   x <> w -> fst (run x (WordDFA w)) = false).
Proof.
  intros Hfits.
  assert (Hiff : forall y : string, fst (run y (WordDFA w)) = true <-> y = w).
  { intros y. rewrite run_unfold.
    change (set_actState initialState (WordDFA w)) with (WordDFA w).
    apply chain_run_loop.
    - reflexivity.
    - cbn [WordDFA actState AbstractDFA_ctor]. unfold initialState. lia.
    - apply WordDFA_chain, Hfits.
    - cbn [WordDFA finalStates actState AbstractDFA_ctor app initialState].
      unfold word_fits, INT_MAX in Hfits.
      rewrite to_int_small by (unfold INT_MAX; lia). reflexivity. }
  assert (Hrej : x <> w -> fst (run x (WordDFA w)) = false).
  { intros Hne. apply not_true_is_false. rewrite Hiff. exact Hne. }
  split; [apply Hiff | split; [apply Hiff; reflexivity | split; [exact Hrej|]]].
  split; [|split].
  - intros c t ->. apply Hrej, append_nonempty_neq.
  - intros c t E. apply Hrej. rewrite E. intros E'. symmetry in E'.
    exact (append_nonempty_neq _ _ _ E').
  - intros _. exact Hrej.
Qed.

Lemma WordDFA_run_iff_witness :
  fst (run "abc" (WordDFA "abc")) = true /\
  fst (run "ab" (WordDFA "abc")) = false /\
  fst (run "abcd" (WordDFA "abc")) = false /\
  fst (run "acb" (WordDFA "abc")) = false.
Proof.
  assert (Hfits : word_fits "abc") by (unfold word_fits, INT_MAX; cbn; lia).
  split; [|split; [|split]].
  - exact (proj1 (proj2 (WordDFA_run_iff "abc" "abc" Hfits))).
  - destruct (WordDFA_run_iff "abc" "ab" Hfits) as (_ & _ & _ & Hpre & _).
    apply (Hpre "c"%char EmptyString). reflexivity.
  - destruct (WordDFA_run_iff "abc" "abcd" Hfits) as (_ & _ & _ & _ & Hext & _).
    apply (Hext "d"%char EmptyString). reflexivity.
  - destruct (WordDFA_run_iff "abc" "acb" Hfits) as (_ & _ & _ & _ & _ & Hperm).
    apply Hperm.
    + cbn [list_ascii_of_string]. apply perm_skip, perm_swap.
    + discriminate.
Defined.

(** ** The range of the current state *)

Lemma range_inv_put (q : Z) (d : AbstractDFA) :
  range_inv d ->
  q = trapState \/ 0 <= q <= numStates d - 1 ->
  range_inv (set_actState q d).
Proof.
  intros [Hi Ht Hc _] Hq. split; [exact Hi | exact Ht | exact Hc | exact Hq].
Qed.

Lemma range_inv_AbstractDFA_doStep (c : ascii) (d : AbstractDFA) :
  range_inv d -> range_inv (snd (AbstractDFA_doStep c d)).
Proof.
  intros Hinv. unfold AbstractDFA_doStep.
  destruct (negb (actState d =? trapState)); [|exact Hinv].
  destruct (transitionF d !! (actState d, c)) as [q|] eqn:Hq; cbn [put_actState snd].
  - apply range_inv_put; [exact Hinv|]. right. exact (inv_table d Hinv _ _ Hq).
  - apply range_inv_put; [exact Hinv|]. left. reflexivity.
Qed.

Lemma range_inv_CommentDFA_doStep (c : ascii) (d : AbstractDFA) :
  vptr d = CommentDFA_class ->
  range_inv d -> range_inv (snd (CommentDFA_doStep c d)).
Proof.
  intros Hcls Hinv. pose proof (inv_comment d Hinv Hcls) as H8.
  unfold CommentDFA_doStep.
  repeat case_match; try apply range_inv_AbstractDFA_doStep; try exact Hinv;
    cbn [put_actState snd]; apply range_inv_put; try exact Hinv; right; lia.
Qed.

Lemma range_inv_doStep (c : ascii) (d : AbstractDFA) :
  range_inv d -> range_inv (snd (doStep c d)).
Proof.
  intros Hinv. unfold doStep. destruct (vptr d) eqn:Hcls.
  - apply range_inv_AbstractDFA_doStep, Hinv.
  - apply range_inv_AbstractDFA_doStep, Hinv.
  - apply range_inv_CommentDFA_doStep; [exact Hcls | exact Hinv].
Qed.

Lemma range_inv_do_call (k : call) (d : AbstractDFA) :
  range_inv d -> range_inv (snd (do_call k d)).
Proof.
  intros Hinv. destruct k as [|c]; cbn [do_call].
  - unfold reset. cbn [put_actState snd].
    apply range_inv_put; [exact Hinv|]. right. exact (inv_initial d Hinv).
  - apply range_inv_doStep, Hinv.
Qed.

Lemma range_inv_do_calls (ks : list call) (d : AbstractDFA) :
  range_inv d -> range_inv (snd (do_calls ks d)).
Proof.
  revert d. induction ks as [|k ks IH]; intros d Hinv; cbn [do_calls].
  - exact Hinv.
  - rewrite bind_unfold. apply IH, range_inv_do_call, Hinv.
Qed.

Lemma do_calls_numStates (ks : list call) (d : AbstractDFA) :
  numStates (snd (do_calls ks d)) = numStates d.
Proof.
  revert d. induction ks as [|k ks IH]; intros d; cbn [do_calls].
  - reflexivity.
  - rewrite bind_unfold, IH. destruct k as [|c]; cbn [do_call].
    + reflexivity.
    + rewrite doStep_frame. reflexivity.
Qed.

(** The values stored by the loop of [WordDFA::WordDFA] are the states after
    the loop index, up to the end of the word. *)
Lemma WordDFA_loop_values (rest : string) :
  forall (i n : Z) (tf : gmap (Z * ascii) Z),
    0 <= i -> i + Z.of_nat (String.length rest) <= INT_MAX ->
    i + Z.of_nat (String.length rest) <= n ->
    (forall k v, tf !! k = Some v -> 0 <= v <= n) ->
    forall k v, WordDFA_loop i rest tf !! k = Some v -> 0 <= v <= n.
Proof.
  induction rest as [|a rest IH]; intros i n tf Hi Hlen Hn Htf k v.
  - apply Htf.
  - rewrite length_String in Hlen, Hn. cbn [WordDFA_loop].
    rewrite to_int_small by (unfold INT_MAX in *; lia).
    apply IH; [lia | lia | lia |].
    intros k' v'. rewrite map_insert_lookup.
    destruct (tf !! k') as [u|] eqn:Hk'.
    + intros [= <-]. exact (Htf _ _ Hk').
    + destruct (decide ((i, a) = k')); [intros [= <-]; lia | discriminate].
Qed.

Lemma WordDFA_numStates (w : string) :
  word_fits w -> numStates (WordDFA w) = Z.of_nat (String.length w) + 1.
Proof.
  unfold word_fits, INT_MAX. intros Hfits.
  cbn [WordDFA numStates AbstractDFA_ctor].
  apply to_int_small. unfold INT_MAX. lia.
Qed.

Lemma WordDFA_range_inv (w : string) : word_fits w -> range_inv (WordDFA w).
Proof.
  intros Hfits. pose proof (WordDFA_numStates w Hfits) as Hn.
  unfold word_fits in Hfits.
  split.
  - rewrite Hn. unfold initialState. lia.
  - intros k v. rewrite Hn. cbn [WordDFA transitionF AbstractDFA_ctor].
    intros Hk.
    assert (0 <= v <= Z.of_nat (String.length w)); [|lia].
    revert k v Hk. apply (WordDFA_loop_values w 0); [lia | lia | lia |].
    intros k v. rewrite lookup_empty. discriminate.
  - discriminate.
  - right. rewrite Hn. cbn [WordDFA actState AbstractDFA_ctor].
    unfold initialState. lia.
Qed.

Lemma CommentDFA_range_inv : range_inv CommentDFA.
Proof.
  split.
  - unfold initialState. cbn [CommentDFA numStates AbstractDFA_ctor]. lia.
  - intros k v. cbn [CommentDFA transitionF numStates AbstractDFA_ctor].
    rewrite !map_insert_lookup, lookup_empty.
    repeat case_decide; intros [= <-]; lia.
  - intros _. cbn [CommentDFA numStates AbstractDFA_ctor]. lia.
  - right. cbn [CommentDFA numStates actState AbstractDFA_ctor].
    unfold initialState. lia.
Qed.

(** C9: the current state stays in range.  For the automaton of a word [w]
    (its declared number of states is the length of [w] plus one) and for
    the comment automaton (eight declared states), after construction and
    after any sequence of [reset] and [doStep] calls the current state is
    the trap state or lies between 0 and the declared number of states
    minus one. *)
Theorem state_range_invariant :
  (forall (w : string) (ks : list call),
      word_fits w ->
      numStates (WordDFA w) = Z.of_nat (String.length w) + 1 /\
      (actState (snd (do_calls ks (WordDFA w))) = trapState \/
       0 <= actState (snd (do_calls ks (WordDFA w)))
         <= numStates (WordDFA w) - 1)) /\
  (forall ks : list call,
      numStates CommentDFA = 8 /\
      (actState (snd (do_calls ks CommentDFA)) = trapState \/
       0 <= actState (snd (do_calls ks CommentDFA)) <= numStates CommentDFA - 1)).
Proof.
  split.
  - intros w ks Hfits. split; [apply WordDFA_numStates, Hfits|].
    pose proof (inv_state _ (range_inv_do_calls ks _ (WordDFA_range_inv w Hfits)))
      as Hst.
    unfold state_in_range in Hst. rewrite do_calls_numStates in Hst. exact Hst.
  - intros ks. split; [reflexivity|].
    pose proof (inv_state _ (range_inv_do_calls ks _ CommentDFA_range_inv)) as Hst.
    unfold state_in_range in Hst. rewrite do_calls_numStates in Hst. exact Hst.
Qed.

Lemma state_range_invariant_witness :
  numStates (WordDFA "ab") = 3 /\
  (actState (snd (do_calls [call_doStep "a"%char; call_reset; call_doStep "b"%char]
                           (WordDFA "ab"))) = trapState \/
   0 <= actState (snd (do_calls [call_doStep "a"%char; call_reset;
                                 call_doStep "b"%char] (WordDFA "ab")))
     <= numStates (WordDFA "ab") - 1).
Proof.
  apply (proj1 state_range_invariant "ab").
  unfold word_fits, INT_MAX. cbn. lia.
Defined.

(** * Further properties *)

(** ** Reuse of an object *)

Lemma isAccepting_snd (d : AbstractDFA) : snd (isAccepting d) = d.
Proof. apply isAccepting_loop_snd. Qed.

Lemma run_frame (x : string) (d : AbstractDFA) :
  snd (run x d) = set_actState (actState (snd (run x d))) d.
Proof.
  rewrite run_unfold, isAccepting_snd, run_loop_frame. reflexivity.
Qed.

Lemma run_reset_first (x : string) (q : Z) (d : AbstractDFA) :
  run x (set_actState q d) = run x d.
Proof. rewrite !run_unfold. reflexivity. Qed.

(** X1: runs are independent of each other.  Whatever input an object has
    processed before, and whatever state a client has stepped it to, the
    next [run] returns the same value and leaves the same object as a [run]
    on the object as it was. *)
Theorem run_forgets_history (x y : string) (ms : list method) (d : AbstractDFA) :
  run y (snd (run x d)) = run y d /\
  run y (snd (invoke_all ms d)) = run y d.
Proof.
  split.
  - rewrite run_frame. apply run_reset_first.
  - revert d. induction ms as [|m ms IH]; intros d; cbn [invoke_all].
    + reflexivity.
    + rewrite bind_unfold, IH.
      destruct m as [|c| |w]; cbn [invoke].
      * apply (run_reset_first y initialState d).
      * rewrite doStep_frame. apply run_reset_first.
      * rewrite bind_unfold. cbn [ret snd]. rewrite isAccepting_snd. reflexivity.
      * rewrite bind_unfold. cbn [ret snd]. rewrite run_frame.
        apply run_reset_first.
Qed.

(** ** What no member function changes *)

Lemma invoke_frame (m : method) (d : AbstractDFA) :
  snd (invoke m d) = set_actState (actState (snd (invoke m d))) d.
Proof.
  destruct m as [|c| |w]; cbn [invoke].
  - reflexivity.
  - apply doStep_frame.
  - rewrite bind_unfold. cbn [ret snd]. rewrite isAccepting_snd.
    symmetry. apply set_actState_same.
  - rewrite bind_unfold. cbn [ret snd]. apply run_frame.
Qed.

(** X2: the dynamic class, the declared number of states, the transition
    table and the accepting states of an object are those the constructor
    left: no sequence of calls of [reset], [doStep], [isAccepting] and [run]
    changes anything but the current state. *)
Theorem members_change_only_actState (ms : list method) (d : AbstractDFA) :
  vptr (snd (invoke_all ms d)) = vptr d /\
  numStates (snd (invoke_all ms d)) = numStates d /\
  transitionF (snd (invoke_all ms d)) = transitionF d /\
  finalStates (snd (invoke_all ms d)) = finalStates d.
Proof.
  revert d. induction ms as [|m ms IH]; intros d; cbn [invoke_all].
  - repeat split.
  - rewrite bind_unfold. destruct (IH (snd (invoke m d))) as (Hv & Hn & Ht & Hf).
    rewrite Hv, Hn, Ht, Hf, invoke_frame. repeat split.
Qed.

(** ** The engine and the table *)

Lemma doStep_generic (c : ascii) (d : AbstractDFA) :
  vptr d <> CommentDFA_class -> doStep c d = AbstractDFA_doStep c d.
Proof. intros H. unfold doStep. destruct (vptr d); [reflexivity..|contradiction]. Qed.

Lemma engine_state (x : string) :
  forall d : AbstractDFA,
    vptr d <> CommentDFA_class ->
    (forall c : ascii, transitionF d !! (trapState, c) = None) ->
    actState (snd (run_loop x d)) =
    match delta_star (transitionF d) (actState d) x with
    | Some r => r
    | None => trapState
    end.
Proof.
  induction x as [|c x IH]; intros d Hcls Hfree.
  - reflexivity.
  - rewrite run_loop_cons, doStep_generic by exact Hcls.
    cbn [delta_star]. unfold AbstractDFA_doStep.
    destruct (Z.eqb_spec (actState d) trapState) as [E|N]; cbn [negb].
    + cbn [snd]. rewrite run_loop_trap by exact E. cbn [snd].
      rewrite E, Hfree. reflexivity.
    + destruct (transitionF d !! (actState d, c)) as [q|]; cbn [put_actState snd].
      * rewrite IH by assumption. reflexivity.
      * rewrite run_loop_trap by reflexivity. reflexivity.
Qed.

(** X3: the engine accepts what the table accepts.  For an object that uses
    the engine's own [doStep], whose table has no edge out of the trap state
    and whose accepting states do not include it, [run] returns true exactly
    when the edges of the table lead from the initial state along the whole
    input to an accepting state; a missing edge anywhere rejects. *)
Theorem engine_follows_table (d : AbstractDFA) (x : string) :
  vptr d <> CommentDFA_class ->
  (forall c : ascii, transitionF d !! (trapState, c) = None) ->
  ~ In trapState (finalStates d) ->
  (fst (run x d) = true <->
   exists r : Z,
     delta_star (transitionF d) initialState x = Some r /\ In r (finalStates d)).
Proof.
  intros Hcls Hfree Hnt. rewrite run_unfold. unfold isAccepting.
  rewrite isAccepting_loop_In, run_loop_frame.
  cbn [actState finalStates set_actState].
  rewrite engine_state by assumption.
  cbn [actState transitionF set_actState].
  destruct (delta_star (transitionF d) initialState x) as [r|].
  - split; [intros H; exists r; split; [reflexivity | exact H]|].
    intros (r' & [= <-] & H). exact H.
  - split; [intros H; contradiction | intros (r' & [=] & _)].
Qed.

Lemma engine_follows_table_witness :
  fst (run "ab" (WordDFA "ab")) = true <->
  exists r : Z,
    delta_star (transitionF (WordDFA "ab")) initialState "ab" = Some r /\
    In r (finalStates (WordDFA "ab")).
Proof.
  apply (engine_follows_table (WordDFA "ab") "ab").
  - discriminate.
  - intros c. cbn [WordDFA transitionF AbstractDFA_ctor WordDFA_loop].
    rewrite !map_insert_lookup_ne by (intros [=]). apply lookup_empty.
  - cbn. intros [H|[]]. discriminate H.
Defined.

(** ** The trap state is not accepting *)

Lemma WordDFA_finalStates (w : string) :
  word_fits w -> finalStates (WordDFA w) = [Z.of_nat (String.length w)].
Proof.
  unfold word_fits, INT_MAX. intros Hfits.
  cbn [WordDFA finalStates AbstractDFA_ctor app].
  rewrite to_int_small by (unfold INT_MAX; lia). reflexivity.
Qed.

(** X4: the trap state is not an accepting state of the word automaton or
    of the comment automaton; and for any object whose accepting states do
    not include it, an input with a prefix that leads to the trap state is
    rejected by [run]. *)
Theorem trapped_prefix_rejected :
  (forall w : string, word_fits w -> ~ In trapState (finalStates (WordDFA w))) /\
  ~ In trapState (finalStates CommentDFA) /\
  (forall (d : AbstractDFA) (pre cont : string),
      ~ In trapState (finalStates d) ->
      actState (snd (run_loop pre (snd (reset d)))) = trapState ->
      fst (run (pre +:+ cont) d) = false).
Proof.
  split; [|split].
  - intros w Hfits. rewrite WordDFA_finalStates by exact Hfits.
    unfold trapState. cbn [In]. lia.
  - cbn. intros [H|[]]. discriminate H.
  - intros d pre cont Hnt Htrap.
    apply not_true_is_false. rewrite run_unfold. unfold isAccepting.
    rewrite isAccepting_loop_In.
    change (set_actState initialState d) with (snd (reset d)).
    rewrite run_loop_app, run_loop_trap by exact Htrap. cbn [snd].
    rewrite Htrap, run_loop_frame. exact Hnt.
Qed.

Lemma trapped_prefix_rejected_witness :
  fst (run ("x" +:+ brace_comment) CommentDFA) = false.
Proof.
  destruct trapped_prefix_rejected as (_ & Hc & Hrej).
  apply (Hrej CommentDFA "x" brace_comment Hc).
  vm_compute. reflexivity.
Defined.

(** ** The contents of the word automaton's table *)

Lemma WordDFA_loop_lookup_ge (rest : string) :
  forall (i : Z) (tf : gmap (Z * ascii) Z) (k : Z) (c : ascii),
    0 <= i -> i + Z.of_nat (String.length rest) <= INT_MAX ->
    (forall (k' : Z) (c' : ascii), i <= k' -> tf !! (k', c') = None) ->
    i <= k ->
    WordDFA_loop i rest tf !! (k, c) =
    match String.get (Z.to_nat (k - i)) rest with
    | Some a => if decide (a = c) then Some (k + 1) else None
    | None => None
    end.
Proof.
  induction rest as [|a rest IH]; intros i tf k c Hi Hlen Hfree Hk.
  - cbn [WordDFA_loop String.get]. apply Hfree, Hk.
  - rewrite length_String in Hlen. cbn [WordDFA_loop].
    rewrite to_int_small by (unfold INT_MAX in *; lia).
    destruct (decide (k = i)) as [->|Hne].
    + rewrite WordDFA_loop_lookup_lt by lia.
      rewrite map_insert_lookup, Hfree by lia.
      replace (Z.to_nat (i - i)) with 0%nat by lia. cbn [String.get].
      destruct (decide (a = c)) as [->|N].
      * rewrite decide_True by reflexivity. reflexivity.
      * rewrite decide_False by congruence. reflexivity.
    + rewrite IH; [| lia | lia | | lia].
      * replace (Z.to_nat (k - i)) with (S (Z.to_nat (k - (i + 1)))) by lia.
        reflexivity.
      * intros k' c' Hk'.
        rewrite map_insert_lookup_ne by (intros [= E _]; lia).
        apply Hfree. lia.
Qed.

Lemma WordDFA_loop_size (rest : string) :
  forall (i : Z) (tf : gmap (Z * ascii) Z),
    0 <= i -> i + Z.of_nat (String.length rest) <= INT_MAX ->
    (forall (k : Z) (c : ascii), i <= k -> tf !! (k, c) = None) ->
    size (WordDFA_loop i rest tf) = (size tf + String.length rest)%nat.
Proof.
  induction rest as [|a rest IH]; intros i tf Hi Hlen Hfree.
  - cbn [WordDFA_loop String.length]. lia.
  - rewrite length_String in Hlen. cbn [WordDFA_loop String.length].
    rewrite to_int_small by (unfold INT_MAX in *; lia).
    rewrite IH; [| lia | lia |].
    + unfold map_insert. rewrite Hfree by lia.
      rewrite map_size_insert_None by (apply Hfree; lia). lia.
    + intros k c Hk.
      rewrite map_insert_lookup_ne by (intros [= E _]; lia).
      apply Hfree. lia.
Qed.

(** X5: the table of the word automaton holds exactly one edge per position
    of the word.  The table maps the pair of a state [i] and a character [c]
    to [v] if and only if [i] is a position of the word, [c] is the
    character at that position and [v] is [i + 1]; its size is the length of
    the word, also when the word repeats characters. *)
Theorem WordDFA_table_contents (w : string) :
  word_fits w ->
  (forall (i : Z) (c : ascii) (v : Z),
      transitionF (WordDFA w) !! (i, c) = Some v <->
      0 <= i /\ String.get (Z.to_nat i) w = Some c /\ v = i + 1) /\
  size (transitionF (WordDFA w)) = String.length w.
Proof.
  unfold word_fits. intros Hfits.
  cbn [WordDFA transitionF AbstractDFA_ctor]. split.
  - intros i c v. destruct (Z.lt_ge_cases i 0) as [Hneg|Hpos].
    + rewrite WordDFA_loop_lookup_lt by lia. rewrite lookup_empty.
      split; [discriminate | lia].
    + rewrite WordDFA_loop_lookup_ge;
        [| lia | lia | intros; apply lookup_empty | lia].
      replace (i - 0) with i by lia.
      destruct (String.get (Z.to_nat i) w) as [a|].
      * destruct (decide (a = c)) as [->|N].
        -- split; [intros [= <-]; auto | intros (_ & _ & ->); reflexivity].
        -- split; [discriminate | intros (_ & [= E] & _); contradiction].
      * split; [discriminate | intros (_ & [=] & _)].
  - rewrite WordDFA_loop_size; [| lia | lia | intros; apply lookup_empty].
    rewrite map_size_empty. lia.
Qed.

Lemma WordDFA_table_contents_witness :
  transitionF (WordDFA "aba") !! (2, "a"%char) = Some 3 /\
  size (transitionF (WordDFA "aba")) = 3%nat.
Proof.
  assert (Hfits : word_fits "aba") by (unfold word_fits, INT_MAX; cbn; lia).
  destruct (WordDFA_table_contents "aba" Hfits) as [Hlookup Hsize].
  split; [|exact Hsize].
  apply Hlookup. cbn. repeat split; lia.
Defined.

(** ** The state of the word automaton counts the matched characters *)

Lemma chain_state (x : string) :
  forall (suf : string) (d : AbstractDFA),
    vptr d = WordDFA_class ->
    0 <= actState d ->
    chain_from (transitionF d) (actState d) suf ->
    actState (snd (run_loop x d)) =
    if String.prefix x suf then actState d + Z.of_nat (String.length x)
    else trapState.
Proof.
  induction x as [|c x IH]; intros suf d Hcls Hpos Hchain.
  - cbn [run_loop ret snd String.length].
    destruct suf; cbn [String.prefix]; lia.
  - rewrite run_loop_cons, doStep_generic by (rewrite Hcls; discriminate).
    unfold AbstractDFA_doStep.
    assert (Hnt : (actState d =? trapState) = false)
      by (apply Z.eqb_neq; unfold trapState; lia).
    rewrite Hnt. cbn [negb].
    destruct suf as [|a suf]; cbn [chain_from String.prefix] in Hchain |- *.
    + rewrite Hchain. cbn [put_actState snd].
      rewrite run_loop_trap by reflexivity. reflexivity.
    + destruct Hchain as [Hedge Hchain]. rewrite Hedge.
      destruct (ascii_dec c a) as [->|N].
      * rewrite decide_True by reflexivity. cbn [put_actState snd].
        rewrite (IH suf); cbn [set_actState actState vptr transitionF];
          [| exact Hcls | lia | exact Hchain].
        rewrite length_String. destruct (String.prefix x suf); [lia | reflexivity].
      * rewrite decide_False by congruence. cbn [put_actState snd].
        rewrite run_loop_trap by reflexivity. reflexivity.
Qed.

(** X6: the current state of the word automaton is the number of characters
    matched so far.  After [reset] and one [doStep] per character of [x],
    the state is the length of [x] if [x] is a prefix of the word, and the
    trap state otherwise. *)
Theorem WordDFA_state_counts_prefix (w x : string) :
  word_fits w ->
  actState (snd (run_loop x (snd (reset (WordDFA w))))) =
  if String.prefix x w then Z.of_nat (String.length x) else trapState.
Proof.
  intros Hfits.
  change (snd (reset (WordDFA w))) with (WordDFA w).
  rewrite (chain_state x w).
  - reflexivity.
  - reflexivity.
  - cbn [WordDFA actState AbstractDFA_ctor]. unfold initialState. lia.
  - apply WordDFA_chain, Hfits.
Qed.

Lemma WordDFA_state_counts_prefix_witness :
  actState (snd (run_loop "ab" (snd (reset (WordDFA "abc"))))) = 2 /\
  actState (snd (run_loop "ac" (snd (reset (WordDFA "abc"))))) = trapState.
Proof.
  assert (Hfits : word_fits "abc") by (unfold word_fits, INT_MAX; cbn; lia).
  split.
  - exact (WordDFA_state_counts_prefix "abc" "ab" Hfits).
  - exact (WordDFA_state_counts_prefix "abc" "ac" Hfits).
Defined.

(** ** The earlier revision of [run] on the word automaton *)

(** X7: with the body [return actState;] of [isAccepting] in automata.cpp,
    [run] on a word automaton does not depend on the word: it returns false
    on the empty input and true on every other input. *)
Theorem run_conv_accepts_nonempty (w x : string) :
  word_fits w ->
  fst (run_conv x (WordDFA w)) =
  match x with
  | EmptyString => false
  | String _ _ => true
  end.
Proof.
  intros Hfits. unfold run_conv. rewrite !bind_unfold.
  unfold isAccepting_conv. cbn [fst].
  change (snd (reset (WordDFA w))) with (WordDFA w).
  rewrite (chain_state x w);
    [| reflexivity
     | cbn [WordDFA actState AbstractDFA_ctor]; unfold initialState; lia
     | apply WordDFA_chain, Hfits ].
  change (actState (WordDFA w)) with 0. rewrite Z.add_0_l.
  destruct x as [|c x].
  - destruct w; reflexivity.
  - destruct (String.prefix (String c x) w).
    + rewrite length_String.
      destruct (Z.eqb_spec (Z.of_nat (String.length x) + 1) 0); [lia | reflexivity].
    + reflexivity.
Qed.

Lemma run_conv_accepts_nonempty_witness :
  fst (run_conv "zz" (WordDFA "ab")) = true /\
  fst (run_conv EmptyString (WordDFA EmptyString)) = false.
Proof.
  split.
  - apply (run_conv_accepts_nonempty "ab" "zz").
    unfold word_fits, INT_MAX. cbn. lia.
  - apply (run_conv_accepts_nonempty EmptyString EmptyString).
    unfold word_fits, INT_MAX. cbn. lia.
Defined.

(** ** Table entries the comment automaton never reads *)

Lemma AbstractDFA_doStep_table (c : ascii) (T : gmap (Z * ascii) Z)
      (d : AbstractDFA) :
  transitionF d !! (actState d, c) = T !! (actState d, c) ->
  AbstractDFA_doStep c (set_transitionF T d) =
  (tt, set_transitionF T (snd (AbstractDFA_doStep c d))).
Proof.
  intros Hlook. unfold AbstractDFA_doStep.
  cbn [actState transitionF set_transitionF]. rewrite <- Hlook.
  repeat case_match; reflexivity.
Qed.

Lemma CommentDFA_doStep_table (c : ascii) (T : gmap (Z * ascii) Z)
      (d : AbstractDFA) :
  agree_off_switch (transitionF d) T ->
  CommentDFA_doStep c (set_transitionF T d) =
  (tt, set_transitionF T (snd (CommentDFA_doStep c d))).
Proof.
  intros Hagree. unfold CommentDFA_doStep. cbn [actState set_transitionF].
  destruct (decide (actState d = 2)) as [E|N2]; [rewrite E; repeat case_match; reflexivity|].
  destruct (decide (actState d = 4)) as [E|N4]; [rewrite E; repeat case_match; reflexivity|].
  destruct (decide (actState d = 6)) as [E|N6]; [rewrite E; repeat case_match; reflexivity|].
  destruct (decide (actState d = 7)) as [E|N7]; [rewrite E; repeat case_match; reflexivity|].
  pose proof (AbstractDFA_doStep_table c T d (Hagree _ c N2 N4 N6 N7)) as Hgen.
  repeat case_match; first [exact Hgen | lia].
Qed.

Lemma run_loop_table (x : string) (T : gmap (Z * ascii) Z) :
  forall d : AbstractDFA,
    vptr d = CommentDFA_class ->
    agree_off_switch (transitionF d) T ->
    run_loop x (set_transitionF T d) = (tt, set_transitionF T (snd (run_loop x d))).
Proof.
  induction x as [|c x IH]; intros d Hcls Hagree.
  - reflexivity.
  - rewrite !run_loop_cons.
    assert (Hstep : doStep c (set_transitionF T d) =
                    (tt, set_transitionF T (snd (doStep c d)))).
    { unfold doStep. cbn [vptr set_transitionF]. rewrite Hcls.
      apply CommentDFA_doStep_table, Hagree. }
    rewrite Hstep. cbn [snd]. apply IH.
    + rewrite doStep_frame. exact Hcls.
    + rewrite doStep_frame. exact Hagree.
Qed.

Lemma isAccepting_loop_table (fs : list Z) (T : gmap (Z * ascii) Z)
      (d : AbstractDFA) :
  isAccepting_loop fs (set_transitionF T d) =
  (fst (isAccepting_loop fs d), set_transitionF T (snd (isAccepting_loop fs d))).
Proof.
  induction fs as [|it fs IH]; cbn [isAccepting_loop].
  - reflexivity.
  - cbn [actState set_transitionF]. destruct (it =? actState d); [reflexivity|].
    exact IH.
Qed.

Lemma CommentDFA_agree_looked_up :
  agree_off_switch (transitionF CommentDFA) CommentDFA_looked_up_edges.
Proof.
  intros q c H2 H4 H6 H7.
  cbn [CommentDFA transitionF AbstractDFA_ctor]. unfold CommentDFA_looked_up_edges.
  rewrite !map_insert_lookup, lookup_empty.
  repeat case_decide; simplify_eq; reflexivity.
Qed.

(** X8: the comment automaton never reads the table entries of states 2,
    4, 6 and 7, which its own [doStep] handles.  Replacing the table of a
    comment object by one that agrees with it on all other states changes
    neither the value of [run] nor the state it ends in; so the three edges
    out of states 2, 4 and 7 that the constructor inserts have no effect:
    with only the other five edges [run] returns the same value. *)
Theorem CommentDFA_switch_states_ignore_table :
  (forall (d : AbstractDFA) (T : gmap (Z * ascii) Z) (x : string),
      vptr d = CommentDFA_class ->
      agree_off_switch (transitionF d) T ->
      run x (set_transitionF T d) =
      (fst (run x d), set_transitionF T (snd (run x d)))) /\
  (forall x : string,
      fst (run x (set_transitionF CommentDFA_looked_up_edges CommentDFA)) =
      fst (run x CommentDFA)).
Proof.
  assert (Hgen : forall (d : AbstractDFA) (T : gmap (Z * ascii) Z) (x : string),
             vptr d = CommentDFA_class ->
             agree_off_switch (transitionF d) T ->
             run x (set_transitionF T d) =
             (fst (run x d), set_transitionF T (snd (run x d)))).
  { intros d T x Hcls Hagree. rewrite !run_unfold.
    change (set_actState initialState (set_transitionF T d))
      with (set_transitionF T (set_actState initialState d)).
    rewrite run_loop_table by assumption. cbn [snd].
    unfold isAccepting. cbn [finalStates set_transitionF].
    apply isAccepting_loop_table. }
  split; [exact Hgen|].
  intros x. rewrite Hgen; [reflexivity | reflexivity |].
  apply CommentDFA_agree_looked_up.
Qed.

Lemma CommentDFA_switch_states_ignore_table_witness :
  fst (run paren_comment (set_transitionF CommentDFA_looked_up_edges CommentDFA)) =
  fst (run paren_comment CommentDFA).
Proof.
  pose proof (proj1 CommentDFA_switch_states_ignore_table CommentDFA
                CommentDFA_looked_up_edges paren_comment eq_refl
                CommentDFA_agree_looked_up) as H.
  rewrite H. reflexivity.
Defined.

(** ** The language of the comment automaton *)

Lemma append_nil_l (s : string) : EmptyString +:+ s = s.
Proof. reflexivity. Qed.

Lemma append_cons (a : ascii) (x y : string) :
  String a x +:+ y = String a (x +:+ y).
Proof. reflexivity. Qed.

Ltac str_norm :=
  unfold close_token, close_paren, open_paren, nl in *;
  rewrite ?append_cons, ?append_nil_l in *.

(** Acceptance of the rest of the input from a given state. *)
Lemma accepts_nil (q : Z) :
  fst (isAccepting (snd (run_loop EmptyString (at_state q)))) = true <-> q = 3.
Proof.
  cbn [run_loop ret snd]. unfold isAccepting. rewrite isAccepting_loop_In.
  cbn. split; [intros [H|[]]; congruence | intros ->; left; reflexivity].
Qed.

Lemma accepts_trap (x : string) :
  fst (isAccepting (snd (run_loop x (at_state trapState)))) = false.
Proof. rewrite run_loop_trap by reflexivity. reflexivity. Qed.

Lemma accepts_3 (x : string) :
  fst (isAccepting (snd (run_loop x (at_state 3)))) = true <-> x = EmptyString.
Proof.
  destruct x as [|c x].
  - rewrite accepts_nil. tauto.
  - rewrite run_loop_cons, CommentDFA_doStep_state3. cbn [snd].
    rewrite accepts_trap. split; discriminate.
Qed.

(** States 2 and 4: loop until the closing character. *)
Lemma accepts_until (q : Z) (stop : ascii) :
  q <> 3 ->
  (forall c : ascii,
      doStep c (at_state q) =
      (tt, at_state (if Ascii.eqb c stop then 3 else q))) ->
  forall t : string,
    fst (isAccepting (snd (run_loop t (at_state q)))) = true <->
    exists body : string,
      t = body +:+ String stop EmptyString /\ free_of stop body.
Proof.
  intros Hq Hstep t. induction t as [|c t IH].
  - rewrite accepts_nil. split; [contradiction|].
    intros ([|b body] & E & _); str_norm; discriminate.
  - rewrite run_loop_cons, Hstep. cbn [snd].
    destruct (Ascii.eqb_spec c stop) as [->|N].
    + rewrite accepts_3. split.
      * intros ->. exists EmptyString. split; [reflexivity|]. intros [].
      * intros ([|b body] & E & Hfree); str_norm.
        -- injection E as E. exact E.
        -- injection E as <- _. exfalso. apply Hfree. left. reflexivity.
    + rewrite IH. split.
      * intros (body & -> & Hfree). exists (String c body). split; [reflexivity|].
        intros [E|HIn]; [congruence | exact (Hfree HIn)].
      * intros ([|b body] & E & Hfree); str_norm.
        -- injection E as E _. contradiction.
        -- injection E as <- ->. exists body. split; [reflexivity|].
           intros HIn. apply Hfree. right. exact HIn.
Qed.

Lemma CommentDFA_step_2 (c : ascii) :
  doStep c (at_state 2) = (tt, at_state (if Ascii.eqb c "010"%char then 3 else 2)).
Proof.
  unfold doStep, CommentDFA_doStep. cbn [vptr actState set_actState CommentDFA
    AbstractDFA_ctor]. destruct (Ascii.eqb c "010"%char); reflexivity.
Qed.

Lemma CommentDFA_step_4 (c : ascii) :
  doStep c (at_state 4) = (tt, at_state (if Ascii.eqb c "}"%char then 3 else 4)).
Proof.
  unfold doStep, CommentDFA_doStep. cbn [vptr actState set_actState CommentDFA
    AbstractDFA_ctor]. destruct (Ascii.eqb c "}"%char); reflexivity.
Qed.

Lemma CommentDFA_step_6 (c : ascii) :
  doStep c (at_state 6) = (tt, at_state (if Ascii.eqb c "*"%char then 7 else 6)).
Proof.
  unfold doStep, CommentDFA_doStep. cbn [vptr actState set_actState CommentDFA
    AbstractDFA_ctor]. destruct (Ascii.eqb c "*"%char); reflexivity.
Qed.

Lemma CommentDFA_step_7 (c : ascii) :
  doStep c (at_state 7) =
  (tt, at_state (if Ascii.eqb c ")"%char then 3
                 else if Ascii.eqb c "*"%char then 7 else 6)).
Proof.
  unfold doStep, CommentDFA_doStep. cbn [vptr actState set_actState CommentDFA
    AbstractDFA_ctor].
  destruct (Ascii.eqb c ")"%char); [reflexivity|].
  destruct (Ascii.eqb c "*"%char); reflexivity.
Qed.

(** The words that close at their end only. *)
Lemma closes_nil : ~ closes_at_end_only EmptyString.
Proof. intros [[[|b u] E] _]; str_norm; discriminate. Qed.

Lemma closes_cons (a : ascii) (t : string) :
  ~ (a = "*"%char /\ exists t' : string, t = String ")"%char t') ->
  closes_at_end_only (String a t) <-> closes_at_end_only t.
Proof.
  intros Hnot. split.
  - intros [[body Hb] Hpre]. split.
    + destruct body as [|b body]; str_norm.
      * injection Hb as -> ->. exfalso. apply Hnot. eauto.
      * injection Hb as _ ->. exists body. reflexivity.
    + intros p s Hps Hs [u Hu]. apply (Hpre (String a p) s).
      * rewrite Hps. reflexivity.
      * exact Hs.
      * exists (String a u). rewrite Hu. reflexivity.
  - intros [[body Hb] Hpre]. split.
    + exists (String a body). rewrite Hb. reflexivity.
    + intros p s Hps Hs [u Hu].
      destruct p as [|a' p].
      { destruct u; str_norm; discriminate. }
      rewrite append_cons in Hps. injection Hps as <- Ht.
      destruct u as [|b u]; str_norm.
      * injection Hu as -> ->. apply Hnot. split; [reflexivity|].
        rewrite Ht. str_norm. eauto.
      * injection Hu as _ Hp. apply (Hpre p s Ht Hs). exists u. exact Hp.
Qed.

Lemma closes_token_first (t : string) :
  closes_at_end_only (String "*"%char (String ")"%char t)) <-> t = EmptyString.
Proof.
  split.
  - intros [_ Hpre]. destruct t as [|c t]; [reflexivity|]. exfalso.
    apply (Hpre close_token (String c t)).
    + reflexivity.
    + discriminate.
    + exists EmptyString. reflexivity.
  - intros ->. split.
    + exists EmptyString. reflexivity.
    + intros p s Hps Hs [u Hu]. subst p.
      apply (f_equal String.length) in Hps.
      rewrite !length_append in Hps.
      change (String.length close_token) with 2%nat in Hps.
      destruct s; [contradiction|]. cbn [String.length] in Hps. lia.
Qed.

Lemma accepts_6_7 (t : string) :
  (fst (isAccepting (snd (run_loop t (at_state 6)))) = true <->
   closes_at_end_only t) /\
  (fst (isAccepting (snd (run_loop t (at_state 7)))) = true <->
   closes_at_end_only (String "*"%char t)).
Proof.
  induction t as [|c t [IH6 IH7]].
  - rewrite !accepts_nil. split.
    + split; [discriminate | intros H; destruct (closes_nil H)].
    + rewrite closes_cons by (intros [_ [t' [=]]]).
      split; [discriminate | intros H; destruct (closes_nil H)].
  - rewrite !run_loop_cons, CommentDFA_step_6, CommentDFA_step_7. cbn [snd].
    split.
    + destruct (Ascii.eqb_spec c "*"%char) as [->|N].
      * exact IH7.
      * rewrite IH6. symmetry. apply closes_cons. intros [E _]. contradiction.
    + destruct (Ascii.eqb_spec c ")"%char) as [->|Np].
      * rewrite accepts_3. symmetry. apply closes_token_first.
      * destruct (Ascii.eqb_spec c "*"%char) as [->|Na].
        -- rewrite IH7. symmetry. apply closes_cons. intros [_ [t' [=]]].
        -- rewrite IH6. symmetry.
           rewrite closes_cons by (intros [_ [t' [= E _]]]; contradiction).
           apply closes_cons. intros [E _]. contradiction.
Qed.

Lemma CommentDFA_lookup_0 (c : ascii) :
  c <> "/"%char -> c <> "{"%char -> c <> "("%char ->
  transitionF CommentDFA !! (0, c) = None.
Proof.
  intros N1 N2 N3. cbn [CommentDFA transitionF AbstractDFA_ctor].
  rewrite !map_insert_lookup_ne by (intros E; simplify_eq).
  apply lookup_empty.
Qed.

Lemma CommentDFA_lookup_1 (c : ascii) :
  c <> "/"%char -> transitionF CommentDFA !! (1, c) = None.
Proof.
  intros N1. cbn [CommentDFA transitionF AbstractDFA_ctor].
  rewrite !map_insert_lookup_ne by (intros E; simplify_eq).
  apply lookup_empty.
Qed.

Lemma CommentDFA_lookup_5 (c : ascii) :
  c <> "*"%char -> transitionF CommentDFA !! (5, c) = None.
Proof.
  intros N1. cbn [CommentDFA transitionF AbstractDFA_ctor].
  rewrite !map_insert_lookup_ne by (intros E; simplify_eq).
  apply lookup_empty.
Qed.

Lemma CommentDFA_step_0 (c : ascii) :
  doStep c (at_state 0) =
  (tt, at_state (if Ascii.eqb c "/"%char then 1
                 else if Ascii.eqb c "{"%char then 4
                 else if Ascii.eqb c "("%char then 5 else trapState)).
Proof.
  destruct (Ascii.eqb_spec c "/"%char) as [->|N1]; [reflexivity|].
  destruct (Ascii.eqb_spec c "{"%char) as [->|N2]; [reflexivity|].
  destruct (Ascii.eqb_spec c "("%char) as [->|N3]; [reflexivity|].
  unfold doStep, CommentDFA_doStep, AbstractDFA_doStep.
  cbn [vptr actState set_actState CommentDFA AbstractDFA_ctor Z.eqb trapState negb].
  change (transitionF _) with (transitionF CommentDFA).
  rewrite CommentDFA_lookup_0 by assumption. reflexivity.
Qed.

Lemma CommentDFA_step_1 (c : ascii) :
  doStep c (at_state 1) =
  (tt, at_state (if Ascii.eqb c "/"%char then 2 else trapState)).
Proof.
  destruct (Ascii.eqb_spec c "/"%char) as [->|N1]; [reflexivity|].
  unfold doStep, CommentDFA_doStep, AbstractDFA_doStep.
  cbn [vptr actState set_actState CommentDFA AbstractDFA_ctor Z.eqb trapState negb].
  change (transitionF _) with (transitionF CommentDFA).
  rewrite CommentDFA_lookup_1 by assumption. reflexivity.
Qed.

Lemma CommentDFA_step_5 (c : ascii) :
  doStep c (at_state 5) =
  (tt, at_state (if Ascii.eqb c "*"%char then 6 else trapState)).
Proof.
  destruct (Ascii.eqb_spec c "*"%char) as [->|N1]; [reflexivity|].
  unfold doStep, CommentDFA_doStep, AbstractDFA_doStep.
  cbn [vptr actState set_actState CommentDFA AbstractDFA_ctor Z.eqb trapState negb].
  change (transitionF _) with (transitionF CommentDFA).
  rewrite CommentDFA_lookup_5 by assumption. reflexivity.
Qed.

Lemma accepts_line_body (t : string) :
  fst (isAccepting (snd (run_loop t (at_state 2)))) = true <->
  exists body : string, t = body +:+ nl /\ free_of "010"%char body.
Proof. apply (accepts_until 2 "010"%char); [discriminate | apply CommentDFA_step_2]. Qed.

Lemma accepts_brace_body (t : string) :
  fst (isAccepting (snd (run_loop t (at_state 4)))) = true <->
  exists body : string, t = body +:+ "}" /\ free_of "}"%char body.
Proof. apply (accepts_until 4 "}"%char); [discriminate | apply CommentDFA_step_4]. Qed.

(** X9: the language of the comment automaton.  [run] returns true exactly
    on the inputs of one of three forms: two slashes, a body without
    newline, and a newline; an opening brace, a body without closing brace,
    and a closing brace; or an opening parenthesis and an asterisk followed
    by a text that ends with an asterisk and a closing parenthesis and has
    no proper prefix ending so. *)
Theorem CommentDFA_language (x : string) :
  fst (run x CommentDFA) = true <->
  is_line_comment x \/ is_brace_comment x \/ is_paren_comment x.
Proof.
  rewrite run_unfold.
  change (set_actState initialState CommentDFA) with (at_state 0).
  split.
  - destruct x as [|c x].
    { rewrite accepts_nil. discriminate. }
    rewrite run_loop_cons, CommentDFA_step_0. cbn [snd].
    destruct (Ascii.eqb_spec c "/"%char) as [->|N1].
    { destruct x as [|c x]; [rewrite accepts_nil; discriminate|].
      rewrite run_loop_cons, CommentDFA_step_1. cbn [snd].
      destruct (Ascii.eqb_spec c "/"%char) as [->|N].
      - rewrite accepts_line_body. intros (body & -> & Hfree).
        left. exists body. split; [reflexivity | exact Hfree].
      - rewrite accepts_trap. discriminate. }
    destruct (Ascii.eqb_spec c "{"%char) as [->|N2].
    { rewrite accepts_brace_body. intros (body & -> & Hfree).
      right; left. exists body. split; [reflexivity | exact Hfree]. }
    destruct (Ascii.eqb_spec c "("%char) as [->|N3].
    { destruct x as [|c x]; [rewrite accepts_nil; discriminate|].
      rewrite run_loop_cons, CommentDFA_step_5. cbn [snd].
      destruct (Ascii.eqb_spec c "*"%char) as [->|N].
      - rewrite (proj1 (accepts_6_7 x)). intros Hc.
        right; right. exists x. split; [reflexivity | exact Hc].
      - rewrite accepts_trap. discriminate. }
    rewrite accepts_trap. discriminate.
  - intros [(body & -> & Hfree) | [(body & -> & Hfree) | (t & -> & Hc)]].
    + change ("//" +:+ body +:+ nl)
        with (String "/"%char (String "/"%char (body +:+ nl))).
      rewrite !run_loop_cons, CommentDFA_step_0. cbn [snd Ascii.eqb Bool.eqb].
      rewrite CommentDFA_step_1. cbn [snd Ascii.eqb Bool.eqb].
      apply accepts_line_body. exists body. split; [reflexivity | exact Hfree].
    + change ("{" +:+ body +:+ "}") with (String "{"%char (body +:+ "}")).
      rewrite run_loop_cons, CommentDFA_step_0. cbn [snd Ascii.eqb Bool.eqb].
      apply accepts_brace_body. exists body. split; [reflexivity | exact Hfree].
    + change (open_paren +:+ "*" +:+ t)
        with (String "("%char (String "*"%char t)).
      rewrite !run_loop_cons, CommentDFA_step_0. cbn [snd Ascii.eqb Bool.eqb].
      rewrite CommentDFA_step_5. cbn [snd Ascii.eqb Bool.eqb].
      apply accepts_6_7. exact Hc.
Qed.
